(** * composio_google.toolset: the Gemini adapter of the Composio toolset

    A shallow embedding of [python/plugins/google/composio_google/toolset.py]:
    the schema adapter [_wrap_tool], the tool listing [get_tool] with its
    deprecated alias [get_actions], the response walker
    [convert_map_composite] and the dispatcher ([execute_function_call],
    [handle_response]).

    Python values are an inductive type; dictionaries are association lists
    in insertion order; the collaborators the class inherits or imports
    ([validate_tools], [get_action_schemas], [execute_action],
    [json_schema_to_model]) are variables of a section; exceptions and the
    effects of the collaborators go through a small state-and-error monad. *)

From Stdlib Require Import List String ZArith Bool Arith Lia.
Import ListNotations.
Local Open Scope string_scope.
Local Open Scope list_scope.
Set Warnings "-register-all".
#[local] Arguments String.eqb : simpl never.

(** ** Python data *)

Module Py.

(** The values the adapter sees.  [VDict] is a plain [dict], [VMapComposite]
    is proto-plus' [MapComposite] (the vendor nested map, not a [dict]
    subclass); both list their items in iteration order.  [VObject] is any
    other object, kept by its representation. *)
Inductive value : Type :=
| VNone
| VBool (b : bool)
| VInt (n : Z)
| VStr (s : string)
| VList (items : list value)
| VTuple (items : list value)
| VDict (items : list (string * value))
| VMapComposite (items : list (string * value))
| VObject (repr : string).

Definition dict : Type := list (string * value).

(** Nested induction: the hypothesis reaches the elements of lists and the
    values of maps. *)
Section value_induction.
Variable P : value -> Prop.
Hypothesis HNone : P VNone.
Hypothesis HBool : forall b, P (VBool b).
Hypothesis HInt : forall n, P (VInt n).
Hypothesis HStr : forall s, P (VStr s).
Hypothesis HList : forall l, Forall P l -> P (VList l).
Hypothesis HTuple : forall l, Forall P l -> P (VTuple l).
Hypothesis HDict : forall d, Forall (fun kv => P (snd kv)) d -> P (VDict d).
Hypothesis HMap :
  forall d, Forall (fun kv => P (snd kv)) d -> P (VMapComposite d).
Hypothesis HObject : forall r, P (VObject r).

Fixpoint value_nested_ind (v : value) : P v :=
  let fix on_list (l : list value) : Forall P l :=
    match l with
    | [] => Forall_nil _
    | x :: l' => Forall_cons _ (value_nested_ind x) (on_list l')
    end in
  let fix on_items (d : list (string * value))
      : Forall (fun kv => P (snd kv)) d :=
    match d with
    | [] => Forall_nil _
    | (k, x) :: d' =>
        Forall_cons (P := fun kv => P (snd kv)) (k, x)
          (value_nested_ind x) (on_items d')
    end in
  match v with
  | VNone => HNone
  | VBool b => HBool b
  | VInt n => HInt n
  | VStr s => HStr s
  | VList l => HList l (on_list l)
  | VTuple l => HTuple l (on_list l)
  | VDict d => HDict d (on_items d)
  | VMapComposite d => HMap d (on_items d)
  | VObject r => HObject r
  end.
End value_induction.

(** [d.get(k)] *)
Fixpoint dict_get (d : dict) (k : string) : option value :=
  match d with
  | [] => None
  | (k', v) :: d' => if String.eqb k' k then Some v else dict_get d' k
  end.

(** [d.get(k, default)] *)
Definition dict_get_default (d : dict) (k : string) (default : value) : value :=
  match dict_get d k with
  | Some v => v
  | None => default
  end.

(** [d[k] = v]: an existing key keeps its position, a new key goes last. *)
Fixpoint dict_set (d : dict) (k : string) (v : value) : dict :=
  match d with
  | [] => [(k, v)]
  | (k', v') :: d' =>
      if String.eqb k' k then (k', v) :: d' else (k', v') :: dict_set d' k v
  end.

(** [{k: v for k, v in items}]: the items are stored one by one into an
    empty dictionary. *)
Definition dict_of_items (items : list (string * value)) : dict :=
  fold_left (fun d kv => dict_set d (fst kv) (snd kv)) items [].

Definition keys (d : dict) : list string := map fst d.

(** A mapping object holds each key once; every value built by the
    interpreter or by the vendor marshalling layer satisfies this. *)
Fixpoint well_formed (v : value) : Prop :=
  match v with
  | VList l | VTuple l =>
      (fix all (l : list value) : Prop :=
         match l with
         | [] => True
         | x :: l' => well_formed x /\ all l'
         end) l
  | VDict d | VMapComposite d =>
      NoDup (map fst d) /\
      (fix all (d : list (string * value)) : Prop :=
         match d with
         | [] => True
         | kv :: d' => well_formed (snd kv) /\ all d'
         end) d
  | _ => True
  end.

(** Python truthiness of the values that occur as conditions here. *)
Definition truthy (v : value) : bool :=
  match v with
  | VNone => false
  | VBool b => b
  | VInt n => negb (Z.eqb n 0)
  | VStr s => negb (String.eqb s "")
  | VList l | VTuple l => negb (Nat.eqb (List.length l) 0)
  | VDict d | VMapComposite d => negb (Nat.eqb (List.length d) 0)
  | VObject _ => true
  end.

End Py.
Import Py.

(** ** Exceptions *)

(** The exceptions that can leave the adapter: the interpreter's own, the
    error taxonomy of the specification, and whatever a collaborator
    raises. *)
Inductive exn : Type :=
| KeyError (key : string)
| AttributeError (attr : string)
| RecursionError
| MalformedResponseError
| Raised (what : string).

(** ** Response walker *)

(** [convert_map_composite], the local function of [execute_function_call]:
<<
    if isinstance(obj, MapComposite):
        return {k: convert_map_composite(v) for k, v in obj.items()}
    elif isinstance(obj, (list, tuple)):
        return [convert_map_composite(item) for item in obj]
    else:
        return obj
>> *)
Fixpoint convert_map_composite (obj : value) : value :=
  match obj with
  | VMapComposite items =>
      VDict (dict_of_items
               (map (fun '(k, v) => (k, convert_map_composite v)) items))
  | VList items | VTuple items => VList (map convert_map_composite items)
  | _ => obj
  end.

(** Nesting depth counted in activations of the walker: one for the value
    itself, and below it as many as its deepest element or map value
    needs. *)
Fixpoint depth (obj : value) : nat :=
  match obj with
  | VMapComposite items =>
      S (fold_right (fun '(_, v) m => Nat.max (depth v) m) 0 items)
  | VList items | VTuple items =>
      S (fold_right (fun v m => Nat.max (depth v) m) 0 items)
  | _ => 1
  end.

(** Sequencing of fallible computations over a list, left to right. *)
Fixpoint traverse {A B : Type} (f : A -> exn + B) (l : list A)
  : exn + list B :=
  match l with
  | [] => inr []
  | x :: l' =>
      match f x with
      | inl e => inl e
      | inr y =>
          match traverse f l' with
          | inl e => inl e
          | inr ys => inr (y :: ys)
          end
      end
  end.

(** The same walker run by an interpreter that allows [limit] nested
    activations of it: the source has no depth test of its own, so the only
    failure is the interpreter's [RecursionError] when an activation is
    asked for and none is left. *)
Fixpoint convert_map_composite_within (limit : nat) (obj : value)
  : exn + value :=
  match limit with
  | O => inl RecursionError
  | S limit' =>
      match obj with
      | VMapComposite items =>
          match traverse
                  (fun '(k, v) =>
                     match convert_map_composite_within limit' v with
                     | inl e => inl e
                     | inr v' => inr (k, v')
                     end) items with
          | inl e => inl e
          | inr items' => inr (VDict (dict_of_items items'))
          end
      | VList items | VTuple items =>
          match traverse (convert_map_composite_within limit') items with
          | inl e => inl e
          | inr items' => inr (VList items')
          end
      | _ => inr obj
      end
  end.

(** Plain data: no vendor map anywhere in the tree. *)
Fixpoint plain (obj : value) : bool :=
  match obj with
  | VMapComposite _ => false
  | VList items | VTuple items => forallb plain items
  | VDict items => forallb (fun '(_, v) => plain v) items
  | _ => true
  end.

(** Sample values: the nested vendor map [{a: {b: [1, 2, 3]}}], a plain
    tree with a tuple in it, and a list nested three deep. *)
Definition nested_vendor_map : value :=
  VMapComposite
    [("a", VMapComposite [("b", VList [VInt 1; VInt 2; VInt 3])])].

Definition plain_tree : value :=
  VTuple [VInt 1; VDict [("a", VNone)]; VList [VStr "b"]].

Definition three_deep : value := VList [VList [VList []]].


(** Neither a vendor map nor a tuple where the walker looks: at the top
    and, through lists, in the elements. *)
Fixpoint settled (obj : value) : bool :=
  match obj with
  | VMapComposite _ | VTuple _ => false
  | VList items => forallb settled items
  | _ => true
  end.

(** ** Vendor objects *)

(** [vertexai.generative_models.FunctionDeclaration(name, description,
    parameters)]. *)
Record FunctionDeclaration : Type := {
  fd_name : value;
  fd_description : value;
  fd_parameters : dict
}.

(** [vertexai.generative_models.Tool(function_declarations)]. *)
Record Tool : Type := { function_declarations : list FunctionDeclaration }.

(** The function-call request of a part: [name] and [args]; [args] is
    [VNone] when the request carries none. *)
Record FunctionCall : Type := { fc_name : string; fc_args : value }.

(** An element of [content.parts]: a [Part], whose [function_call] is
    [None] when it holds no call (the test [part.function_call] is false),
    or an object of another class. *)
Inductive part : Type :=
| Part (function_call : option FunctionCall)
| NotAPart (repr : string).

(** [candidate.content]: [parts] is [None] when the content object has no
    [parts] attribute. *)
Record Content : Type := { parts : option (list part) }.
Record Candidate : Type := { content : Content }.
Record GenerationResponse : Type := { candidates : list Candidate }.

(** ** Effects *)

(** A warning issued through [warnings.warn]: category and message. *)
Inductive warning : Type :=
| DeprecationWarning (message : string).

(** The state a call runs in: the warnings issued so far and the state of
    the Composio backend behind the inherited methods. *)
Record state (World : Type) : Type := {
  warnings : list warning;
  world : World
}.
Arguments Build_state {World}.
Arguments warnings {World}.
Arguments world {World}.

(** Computations that read and change the state and may raise. *)
Definition M (World A : Type) : Type :=
  state World -> state World * (exn + A).

Definition ret {World A : Type} (x : A) : M World A :=
  fun st => (st, inr x).

Definition bind {World A B : Type} (c : M World A) (k : A -> M World B)
  : M World B :=
  fun st =>
    match c st with
    | (st', inl e) => (st', inl e)
    | (st', inr x) => k x st'
    end.

(** A pure step that may raise. *)
Definition attempt {World A : Type} (r : exn + A) : M World A :=
  fun st => (st, r).

(** A method of the base class: it works on the backend only. *)
Definition call {World A : Type} (f : World -> World * (exn + A))
  : M World A :=
  fun st =>
    let (w, r) := f (world st) in
    ({| warnings := warnings st; world := w |}, r).

(** [warnings.warn(message, category=DeprecationWarning)] *)
Definition warn {World : Type} (w : warning) : M World unit :=
  fun st => ({| warnings := warnings st ++ [w]; world := world st |}, inr tt).

Declare Scope py_scope.
Delimit Scope py_scope with py.
Notation "x <- c ;; k" := (bind c (fun x => k))
  (at level 61, c at next level, right associativity) : py_scope.
Notation "c ;;; k" := (bind c (fun _ => k))
  (at level 61, right associativity) : py_scope.

(** A list comprehension whose element expression may raise or act. *)
Fixpoint comprehension {World A B : Type} (f : A -> M World B) (l : list A)
  : M World (list B) :=
  match l with
  | [] => ret []
  | x :: l' =>
      (y <- f x ;; ys <- comprehension f l' ;; ret (y :: ys))%py
  end.

(** A computation that only works on the backend: it neither reads nor
    changes the warnings. *)
Definition backend_only {World A : Type} (c : M World A) : Prop :=
  exists f : World -> World * (exn + A), forall st, c st = call f st.

(** [a or b] on an optional string: [None] and the empty string are
    false. *)
Definition or_else (a : option string) (b : string) : string :=
  match a with
  | Some s => if String.eqb s "" then b else s
  | None => b
  end.

(** [obj.items()]: mappings have it, nothing else here does. *)
Definition items_of (obj : value) : exn + list (string * value) :=
  match obj with
  | VDict d | VMapComposite d => inr d
  | _ => inl (AttributeError "items")
  end.

(** [d[k]] *)
Definition subscript (d : dict) (k : string) : exn + value :=
  match dict_get d k with
  | Some v => inr v
  | None => inl (KeyError k)
  end.

(** The filter [k != "examples"] on an item. *)
Definition not_examples (kv : string * value) : bool :=
  negb (String.eqb (fst kv) "examples").

(** [{k: v for k, v in prop_schema.items() if k != "examples"}] *)
Definition cleaned_prop (prop_items : list (string * value)) : dict :=
  dict_of_items (filter not_examples prop_items).

(** A property schema with its [examples] entry left out and every other
    entry in place. *)
Definition without_examples (prop_schema : value) : value :=
  match prop_schema with
  | VDict prop_items => VDict (filter not_examples prop_items)
  | other => other
  end.

(** The loop of [_wrap_tool] over [properties.items()], started on the
    dictionary built so far. *)
Fixpoint clean_properties (props : list (string * value))
    (cleaned_properties : dict) : exn + dict :=
  match props with
  | [] => inr cleaned_properties
  | (prop_name, prop_schema) :: rest =>
      match items_of prop_schema with
      | inl e => inl e
      | inr prop_items =>
          clean_properties rest
            (dict_set cleaned_properties prop_name
               (VDict (cleaned_prop prop_items)))
      end
  end.

(** The deprecation message of [get_actions]. *)
Definition get_actions_deprecation : warning :=
  DeprecationWarning "Use `ComposioToolSet.get_tools` instead".

(** [typing_extensions.deprecated(msg)]: the wrapper warns, then calls. *)
Definition deprecated {World A : Type} (w : warning) (f : M World A)
  : M World A :=
  (warn w ;;; f)%py.

(** ** A small backend to run the class on *)

Module Backend.

(** The backend state is the journal of the actions executed so far:
    action, parameters, entity. *)
Definition World : Type := list (string * value * string).

(** Every name is an action. *)
Definition Action_of_value (name : string) : exn + string := inr name.

(** Parameters normalize to themselves when they are a mapping. *)
Definition json_schema_to_model (raw : value) : exn + dict :=
  match raw with
  | VDict d => inr d
  | _ => inl (Raised "SchemaError")
  end.

Definition Model_schema (m : dict) : dict := m.

Definition model_dump (tool : dict) : dict := tool.

Definition validate_tools (apps actions tags : option (list string))
    (w : World) : World * (exn + unit) :=
  (w, inr tt).

(** One registered action, with an [examples] entry on its property and
    an empty description. *)
Definition star_schema : dict :=
  [ ("name", VStr "GITHUB_STAR");
    ("description", VStr "");
    ("parameters",
      VDict [ ("properties",
                VDict [ ("repo",
                          VDict [ ("type", VStr "string");
                                  ("examples", VList [VStr "composio"]);
                                  ("title", VStr "Repo") ]) ]);
              ("required", VList [VStr "repo"]) ]) ].

(** The declaration [_wrap_tool] makes of it. *)
Definition star_declaration : FunctionDeclaration :=
  {| fd_name := VStr "GITHUB_STAR";
     fd_description := VStr "";
     fd_parameters :=
       [ ("type", VStr "object");
         ("properties",
           VDict [ ("repo", VDict [ ("type", VStr "string");
                                    ("title", VStr "Repo") ]) ]);
         ("required", VList [VStr "repo"]) ] |}.

Definition get_action_schemas (actions apps tags : option (list string))
    (w : World) : World * (exn + list dict) :=
  (w, inr [star_schema]).

(** Executing an action records it; the action [BROKEN] fails. *)
Definition execute_action (action : string) (params : value)
    (entity : string) (w : World) : World * (exn + value) :=
  (w ++ [(action, params, entity)],
   if String.eqb action "BROKEN" then inl (Raised "ActionExecutionError")
   else inr (VDict [("successful", VBool true); ("action", VStr action)])).

Definition request (name : string) : FunctionCall :=
  {| fc_name := name; fc_args := VNone |}.

(** Two candidates with three function-call parts, the second of which
    fails, next to a part without a call and a candidate without
    parts. *)
Definition broken_second : GenerationResponse :=
  {| candidates :=
       [ {| content :=
              {| parts := Some [ Part (Some (request "FIRST"));
                                 Part None;
                                 Part (Some (request "BROKEN")) ] |} |};
         {| content := {| parts := None |} |};
         {| content :=
              {| parts := Some [ Part (Some (request "THIRD")) ] |} |} ] |}.

Definition fresh : state World := {| warnings := []; world := [] |}.

End Backend.

(** ** Collaborators that refuse, and more registry entries *)

Module Faulty.

(** A filter check that rejects every filter. *)
Definition validate_tools (apps actions tags : option (list string))
    (w : Backend.World) : Backend.World * (exn + unit) :=
  (w ++ [("validate_tools", VNone, "")],
   inl (Raised "FilterValidationError")).

(** An action enumeration without the name [UNKNOWN]. *)
Definition Action_of_value (name : string) : exn + string :=
  if String.eqb name "UNKNOWN" then inl (Raised "ValueError")
  else inr name.

(** A registry entry without a name. *)
Definition nameless_schema : dict :=
  [ ("description", VStr "no name");
    ("parameters", VDict []) ].

(** A registry entry whose parameters are not a mapping. *)
Definition unschematic_schema : dict :=
  [ ("name", VStr "ODD"); ("parameters", VStr "not a schema") ].

(** A registry entry with a property that is not a mapping. *)
Definition flat_property_schema : dict :=
  [ ("name", VStr "FLAT");
    ("parameters",
      VDict [ ("properties", VDict [ ("repo", VStr "string") ]) ]) ].

(** A registry entry without parameters to pass: no [properties], no
    [required], but a title. *)
Definition ping_schema : dict :=
  [ ("name", VStr "PING");
    ("parameters", VDict [ ("title", VStr "PingRequest") ]) ].

(** An array property: [examples] on the property and on its [items]. *)
Definition labels_property : dict :=
  [ ("type", VStr "array");
    ("examples", VList [VList [VStr "bug"]]);
    ("items", VDict [ ("type", VStr "string");
                      ("examples", VList [VStr "bug"]) ]) ].

Definition labels_schema : dict :=
  [ ("name", VStr "GITHUB_LABEL");
    ("parameters",
      VDict [ ("properties", VDict [ ("labels", VDict labels_property) ]);
              ("title", VStr "LabelRequest") ]) ].

(** The declaration [_wrap_tool] makes of it. *)
Definition labels_declaration : FunctionDeclaration :=
  {| fd_name := VStr "GITHUB_LABEL";
     fd_description := VStr "GITHUB_LABEL";
     fd_parameters :=
       [ ("type", VStr "object");
         ("properties",
           VDict [ ("labels",
                     VDict [ ("type", VStr "array");
                             ("items",
                               VDict [ ("type", VStr "string");
                                       ("examples", VList [VStr "bug"]) ])
                           ]) ]);
         ("required", VList []) ] |}.

(** A registry whose second entry cannot be wrapped. *)
Definition get_action_schemas (actions apps tags : option (list string))
    (w : Backend.World) : Backend.World * (exn + list dict) :=
  (w ++ [("get_action_schemas", VNone, "")],
   inr [Backend.star_schema; nameless_schema; ping_schema]).

(** Two candidates with one function call each, the first with a vendor
    map as [args], the second without [args] and behind an object that is
    not a [Part]. *)
Definition two_candidates : GenerationResponse :=
  {| candidates :=
       [ {| content :=
              {| parts :=
                   Some [ Part (Some {| fc_name := "FIRST";
                                        fc_args := nested_vendor_map |}) ]
              |} |};
         {| content :=
              {| parts := Some [ NotAPart "text";
                                 Part (Some (Backend.request "SECOND")) ]
              |} |} ] |}.

End Faulty.

(** ** The toolset class *)

Section ComposioToolset.

(** What the class takes from [composio]: the filter types, the action
    models of the registry with their [model_dump(exclude_none=True)],
    the [Action] enumeration, and the backend state. *)
Variables ActionType AppType TagType ActionModel Action World : Type.
Variable model_dump : ActionModel -> dict.
Variable Action_of_value : string -> exn + Action.

(** [composio.utils.shared.json_schema_to_model] and the [schema()] of
    the model it builds. *)
Variable Model : Type.
Variable json_schema_to_model : value -> exn + Model.
Variable Model_schema : Model -> dict.

(** [self.entity_id] and the inherited methods. *)
Variable self_entity_id : string.
Variable validate_tools :
  option (list AppType) -> option (list ActionType) ->
  option (list TagType) -> World -> World * (exn + unit).
Variable get_action_schemas :
  option (list ActionType) -> option (list AppType) ->
  option (list TagType) -> World -> World * (exn + list ActionModel).
Variable execute_action :
  Action -> value -> string -> World -> World * (exn + value).

Local Open Scope py_scope.
#[local] Set Default Proof Using "Type".

(** [_wrap_tool(self, schema, entity_id=None)] *)
Definition _wrap_tool (schema : dict) (entity_id : option string)
  : exn + FunctionDeclaration :=
  match subscript schema "name" with
  | inl e => inl e
  | inr action =>
      let description := dict_get_default schema "description" action in
      match subscript schema "parameters" with
      | inl e => inl e
      | inr raw =>
          match json_schema_to_model raw with
          | inl e => inl e
          | inr parameters =>
              let properties :=
                dict_get_default (Model_schema parameters) "properties"
                  (VDict []) in
              match items_of properties with
              | inl e => inl e
              | inr props =>
                  match clean_properties props [] with
                  | inl e => inl e
                  | inr cleaned_properties =>
                      let cleaned_parameters :=
                        [ ("type", VStr "object");
                          ("properties", VDict cleaned_properties);
                          ("required",
                            dict_get_default (Model_schema parameters)
                              "required" (VList [])) ] in
                      inr {| fd_name := action;
                             fd_description := description;
                             fd_parameters := cleaned_parameters |}
                  end
              end
          end
      end
  end.

(** [get_tool(self, actions=None, apps=None, tags=None, entity_id=None)] *)
Definition get_tool (actions : option (list ActionType))
    (apps : option (list AppType)) (tags : option (list TagType))
    (entity_id : option string) : M World Tool :=
  call (validate_tools apps actions tags) ;;;
  tools <- call (get_action_schemas actions apps tags) ;;
  decls <- comprehension
             (fun tool =>
                attempt (_wrap_tool (model_dump tool)
                           (Some (or_else entity_id self_entity_id))))
             tools ;;
  ret {| function_declarations := decls |}.

(** [get_actions(self, actions, entity_id=None)], decorated with
    [te.deprecated]. *)
Definition get_actions (actions : list ActionType)
    (entity_id : option string) : M World Tool :=
  deprecated get_actions_deprecation
    (get_tool (Some actions) None None entity_id).

(** The first definition of [execute_function_call] (lines 145-172); the
    class body rebinds the name below, so no call reaches this one. *)
Definition execute_function_call_shadowed (function_call : FunctionCall)
    (entity_id : option string) : M World value :=
  let args := convert_map_composite (fc_args function_call) in
  action <- attempt (Action_of_value (fc_name function_call)) ;;
  call (execute_action action args (or_else entity_id self_entity_id)).

(** [execute_function_call(self, function_call, entity_id=None)], the
    definition in force (lines 199-226). *)
Definition execute_function_call (function_call : FunctionCall)
    (entity_id : option string) : M World value :=
  let args :=
    match fc_args function_call with
    | VNone => VDict []
    | args => convert_map_composite args
    end in
  action <- attempt (Action_of_value (fc_name function_call)) ;;
  call (execute_action action args (or_else entity_id self_entity_id)).

(** The inner loop of [handle_response]: [for part in
    candidate.content.parts]. *)
Fixpoint handle_parts (entity_id : option string) (ps : list part)
    (outputs : list value) : M World (list value) :=
  match ps with
  | [] => ret outputs
  | Part (Some function_call) :: rest =>
      output <- execute_function_call function_call
                  (Some (or_else entity_id self_entity_id)) ;;
      handle_parts entity_id rest (outputs ++ [output])
  | _ :: rest => handle_parts entity_id rest outputs
  end.

(** The outer loop: [for candidate in response.candidates]. *)
Fixpoint handle_candidates (entity_id : option string)
    (cs : list Candidate) (outputs : list value) : M World (list value) :=
  match cs with
  | [] => ret outputs
  | candidate :: rest =>
      match parts (content candidate) with
      | Some ps =>
          outputs' <- handle_parts entity_id ps outputs ;;
          handle_candidates entity_id rest outputs'
      | None => handle_candidates entity_id rest outputs
      end
  end.

(** [handle_response(self, response, entity_id=None)] *)
Definition handle_response (response : GenerationResponse)
    (entity_id : option string) : M World (list value) :=
  handle_candidates entity_id (candidates response) [].

(** The function-call requests of a response, candidate by candidate and
    part by part. *)
Definition calls_of_parts (ps : list part) : list FunctionCall :=
  flat_map (fun p => match p with
                     | Part (Some function_call) => [function_call]
                     | _ => []
                     end) ps.

Definition calls_of_response (response : GenerationResponse)
  : list FunctionCall :=
  flat_map (fun candidate =>
              match parts (content candidate) with
              | Some ps => calls_of_parts ps
              | None => []
              end) (candidates response).

(** ** Dictionaries *)

Lemma dict_set_fresh (d : dict) (k : string) (v : value) :
  ~ In k (keys d) -> dict_set d k v = d ++ [(k, v)].
Proof.
  induction d as [|[k' v'] d IH]; simpl; intros Hk; [reflexivity|].
  destruct (String.eqb_spec k' k) as [->|Hne].
  - exfalso. apply Hk. now left.
  - rewrite IH; [reflexivity|]. intros Hin. apply Hk. now right.
Qed.

Lemma keys_dict_set (d : dict) (k : string) (v : value) :
  In k (keys d) -> keys (dict_set d k v) = keys d.
Proof.
  induction d as [|[k' v'] d IH]; simpl; intros Hk; [contradiction|].
  destruct (String.eqb_spec k' k) as [->|Hne]; simpl; [reflexivity|].
  f_equal. apply IH. destruct Hk as [Heq|Hin]; [congruence|exact Hin].
Qed.

Lemma dict_get_set (d : dict) (k k' : string) (v : value) :
  dict_get (dict_set d k v) k' =
  if String.eqb k k' then Some v else dict_get d k'.
Proof.
  induction d as [|[k0 v0] d IH]; simpl.
  - reflexivity.
  - destruct (String.eqb_spec k0 k) as [->|Hne]; simpl.
    + destruct (String.eqb_spec k k'); reflexivity.
    + destruct (String.eqb_spec k0 k') as [->|Hne'].
      * destruct (String.eqb_spec k k'); [congruence|reflexivity].
      * exact IH.
Qed.

Lemma dict_get_None (d : dict) (k : string) :
  dict_get d k = None <-> ~ In k (keys d).
Proof.
  induction d as [|[k' v'] d IH]; simpl.
  - split; [intros _ []|reflexivity].
  - destruct (String.eqb_spec k' k) as [->|Hne].
    + split; [discriminate|]. intros H. exfalso. apply H. now left.
    + split.
      * intros Hget [Heq|Hin]; [exact (Hne Heq)|].
        apply IH in Hget. exact (Hget Hin).
      * intros Hnot. apply IH. intros Hin. apply Hnot. now right.
Qed.

Lemma dict_get_In (d : dict) (k : string) (v : value) :
  NoDup (keys d) -> In (k, v) d -> dict_get d k = Some v.
Proof.
  induction d as [|[k' v'] d IH]; simpl; intros Hnd Hin; [contradiction|].
  inversion Hnd as [|? ? Hk' Hnd']; subst.
  destruct Hin as [Heq|Hin].
  - inversion Heq; subst. now rewrite String.eqb_refl.
  - destruct (String.eqb_spec k' k) as [->|Hne].
    + exfalso. apply Hk'. apply (in_map fst) in Hin. exact Hin.
    + now apply IH.
Qed.

(** Storing items into a dictionary that has none of their keys, the
    keys being distinct, appends them in order. *)
Lemma fold_dict_set_fresh (items : list (string * value)) (d : dict) :
  NoDup (keys d ++ keys items) ->
  fold_left (fun d kv => dict_set d (fst kv) (snd kv)) items d = d ++ items.
Proof.
  revert d. induction items as [|[k v] items IH]; simpl; intros d Hnd.
  - now rewrite app_nil_r.
  - rewrite dict_set_fresh.
    + rewrite IH.
      * now rewrite <- app_assoc.
      * unfold keys in Hnd |- *. rewrite map_app. simpl.
        rewrite <- app_assoc. exact Hnd.
    + apply NoDup_remove_2 in Hnd. intros Hin. apply Hnd.
      apply in_or_app. now left.
Qed.

(** A comprehension over items with distinct keys keeps them as they
    are, in their order. *)
Lemma dict_of_items_NoDup (items : list (string * value)) :
  NoDup (keys items) -> dict_of_items items = items.
Proof.
  intros Hnd. unfold dict_of_items.
  now rewrite fold_dict_set_fresh.
Qed.

(** Whatever the items, a comprehension only holds keys it was given. *)
Lemma keys_fold_dict_set (items : list (string * value)) (d : dict)
    (k : string) :
  In k (keys (fold_left (fun d kv => dict_set d (fst kv) (snd kv)) items d))
  -> In k (keys d) \/ In k (keys items).
Proof.
  revert d. induction items as [|[k0 v0] items IH]; simpl; intros d Hin.
  - now left.
  - apply IH in Hin. destruct Hin as [Hin|Hin]; [|now right; right].
    simpl in Hin.
    destruct (in_dec string_dec k0 (keys d)) as [Hold|Hnew].
    + rewrite keys_dict_set in Hin by exact Hold. now left.
    + rewrite dict_set_fresh in Hin by exact Hnew.
      unfold keys in Hin. rewrite map_app in Hin.
      apply in_app_or in Hin. destruct Hin as [Hin|[Heq|[]]].
      * now left.
      * right. left. exact Heq.
Qed.

Lemma keys_dict_of_items (items : list (string * value)) (k : string) :
  In k (keys (dict_of_items items)) -> In k (keys items).
Proof.
  intros Hin. apply keys_fold_dict_set in Hin.
  destruct Hin as [[]|Hin]. exact Hin.
Qed.

(** ** Schema adapter *)

Lemma keys_filter_NoDup (f : string * value -> bool)
    (items : list (string * value)) :
  NoDup (keys items) -> NoDup (keys (filter f items)).
Proof.
  induction items as [|kv items IH]; simpl; intros Hnd; [constructor|].
  inversion Hnd as [|? ? Hk Hnd']; subst.
  destruct (f kv); simpl; [|now apply IH].
  constructor; [|now apply IH].
  intros Hin. apply Hk. unfold keys in Hin |- *.
  apply in_map_iff in Hin. destruct Hin as [kv' [Heq Hin]].
  apply filter_In in Hin. destruct Hin as [Hin _].
  apply in_map_iff. exists kv'. split; assumption.
Qed.

(** No cleaned property has an [examples] key, whatever the source
    property held. *)
Lemma cleaned_prop_no_examples (prop_items : list (string * value)) :
  dict_get (cleaned_prop prop_items) "examples" = None.
Proof.
  apply dict_get_None. intros Hin.
  apply keys_dict_of_items in Hin. unfold keys in Hin.
  apply in_map_iff in Hin. destruct Hin as [[k v] [Hk Hin]].
  apply filter_In in Hin. destruct Hin as [_ Hne].
  simpl in Hk. subst k. discriminate Hne.
Qed.

(** On the items of a dictionary the cleaned property is the source with
    the [examples] entry left out, the rest in place. *)
Lemma cleaned_prop_NoDup (prop_items : list (string * value)) :
  NoDup (keys prop_items) ->
  cleaned_prop prop_items = filter not_examples prop_items.
Proof.
  intros Hnd. unfold cleaned_prop.
  apply dict_of_items_NoDup. now apply keys_filter_NoDup.
Qed.

Lemma cleaned_prop_other_keys (prop_items : list (string * value))
    (k : string) :
  NoDup (keys prop_items) -> k <> "examples" ->
  dict_get (cleaned_prop prop_items) k = dict_get prop_items k.
Proof.
  intros Hnd Hk. rewrite cleaned_prop_NoDup by exact Hnd. clear Hnd.
  induction prop_items as [|[k' v'] items IH]; simpl; [reflexivity|].
  unfold not_examples at 1. simpl.
  destruct (String.eqb_spec k' "examples") as [->|Hne]; simpl.
  - destruct (String.eqb_spec "examples" k); [congruence|exact IH].
  - destruct (String.eqb_spec k' k); [reflexivity|exact IH].
Qed.

(** Every value of the dictionary the loop builds is a cleaned property,
    if those it started from are. *)
Lemma clean_properties_no_examples (props : list (string * value)) :
  forall acc cleaned,
    clean_properties props acc = inr cleaned ->
    Forall (fun kv => exists its, snd kv = VDict its /\
                                  dict_get its "examples" = None) acc ->
    Forall (fun kv => exists its, snd kv = VDict its /\
                                  dict_get its "examples" = None) cleaned.
Proof.
  induction props as [|[n ps] props IH]; simpl; intros acc cleaned Hrun Hacc.
  - now inversion Hrun; subst.
  - destruct (items_of ps) as [e|its]; [discriminate|].
    apply IH in Hrun; [exact Hrun|]. clear IH Hrun.
    induction acc as [|[k v] acc IHacc]; simpl.
    + constructor; [|constructor]. exists (cleaned_prop its).
      split; [reflexivity|apply cleaned_prop_no_examples].
    + inversion Hacc as [|? ? Hhd Htl]; subst.
      destruct (String.eqb k n); constructor; auto.
      exists (cleaned_prop its).
      split; [reflexivity|apply cleaned_prop_no_examples].
Qed.

(** On the items of a dictionary of dictionaries the loop keeps the
    property names in order and cleans each property. *)
Lemma clean_properties_NoDup (props : list (string * value)) :
  forall acc,
    NoDup (keys acc ++ keys props) ->
    Forall (fun kv => exists its, snd kv = VDict its /\ NoDup (keys its))
           props ->
    clean_properties props acc =
    inr (acc ++ map (fun kv => (fst kv, without_examples (snd kv))) props).
Proof.
  induction props as [|[n ps] props IH]; simpl; intros acc Hnd Hall.
  - now rewrite app_nil_r.
  - inversion Hall as [|? ? [its [Hps Hits]] Hall']; subst.
    simpl in Hps. subst ps. simpl.
    rewrite dict_set_fresh.
    + rewrite IH; [|unfold keys in Hnd |- *; rewrite map_app; simpl;
                     rewrite <- app_assoc; exact Hnd|exact Hall'].
      rewrite <- app_assoc. simpl.
      now rewrite cleaned_prop_NoDup.
    + apply NoDup_remove_2 in Hnd. intros Hin. apply Hnd.
      apply in_or_app. now left.
Qed.

(** What a successful [_wrap_tool] went through. *)
Lemma _wrap_tool_inr (schema : dict) (entity_id : option string)
    (fd : FunctionDeclaration) :
  _wrap_tool schema entity_id = inr fd ->
  exists action raw parameters props cleaned,
    dict_get schema "name" = Some action /\
    dict_get schema "parameters" = Some raw /\
    json_schema_to_model raw = inr parameters /\
    items_of (dict_get_default (Model_schema parameters) "properties"
                (VDict [])) = inr props /\
    clean_properties props [] = inr cleaned /\
    fd = {| fd_name := action;
            fd_description :=
              dict_get_default schema "description" action;
            fd_parameters :=
              [ ("type", VStr "object");
                ("properties", VDict cleaned);
                ("required",
                  dict_get_default (Model_schema parameters) "required"
                    (VList [])) ] |}.
Proof.
  unfold _wrap_tool, subscript. intros H.
  destruct (dict_get schema "name") as [action|]; [|discriminate].
  destruct (dict_get schema "parameters") as [raw|]; [|discriminate].
  destruct (json_schema_to_model raw) as [e|parameters] eqn:Hmodel;
    [discriminate|].
  destruct (items_of _) as [e|props] eqn:Hprops; [discriminate|].
  destruct (clean_properties props []) as [e|cleaned] eqn:Hclean;
    [discriminate|].
  inversion H; subst.
  exists action, raw, parameters, props, cleaned. repeat split; auto.
Qed.

(** C1. For a tool schema with a name, parameters the normalizer accepts
    and a [properties] dictionary of property dictionaries, [_wrap_tool]
    produces a declaration whose [properties] are the source properties
    in order, each with its [examples] entry left out and every other
    entry passed through; no property of the output has an [examples]
    key; and [required] is present, equal to the normalized schema's
    [required] or to the empty list when the schema has none. *)
Theorem _wrap_tool_cleans_properties_keeps_required
    (schema : dict) (entity_id : option string) (action raw : value)
    (parameters : Model) (props : list (string * value)) :
  dict_get schema "name" = Some action ->
  dict_get schema "parameters" = Some raw ->
  json_schema_to_model raw = inr parameters ->
  dict_get_default (Model_schema parameters) "properties" (VDict [])
    = VDict props ->
  NoDup (keys props) ->
  Forall (fun kv => exists its, snd kv = VDict its /\ NoDup (keys its))
         props ->
  exists fd cleaned,
    _wrap_tool schema entity_id = inr fd /\
    dict_get (fd_parameters fd) "properties" = Some (VDict cleaned) /\
    cleaned = map (fun kv => (fst kv, without_examples (snd kv))) props /\
    Forall (fun kv => exists its, snd kv = VDict its /\
                                  dict_get its "examples" = None)
           cleaned /\
    dict_get (fd_parameters fd) "required" =
      Some match dict_get (Model_schema parameters) "required" with
           | Some required => required
           | None => VList []
           end.
Proof.
  intros Hname Hraw Hmodel Hprops Hnd Hall.
  assert (Hclean := clean_properties_NoDup props [] Hnd Hall).
  simpl in Hclean.
  unfold _wrap_tool, subscript.
  rewrite Hname, Hraw, Hmodel, Hprops. simpl. rewrite Hclean.
  eexists. eexists. split; [reflexivity|]. simpl.
  split; [reflexivity|]. split; [reflexivity|]. split; [|reflexivity].
  eapply clean_properties_no_examples; [exact Hclean|constructor].
Qed.

(** C7, as the code has it. The description of the declaration is the
    schema's [description] entry whenever the schema has that key, also
    when its value is false (the empty string), and the schema's [name]
    only when the key is absent. *)
Theorem _wrap_tool_description_present_or_name
    (schema : dict) (entity_id : option string)
    (fd : FunctionDeclaration) :
  _wrap_tool schema entity_id = inr fd ->
  exists action,
    dict_get schema "name" = Some action /\
    fd_name fd = action /\
    fd_description fd =
      match dict_get schema "description" with
      | Some description => description
      | None => action
      end.
Proof.
  intros H. apply _wrap_tool_inr in H.
  destruct H as (action & raw & parameters & props & cleaned
                 & Hname & _ & _ & _ & _ & ->).
  exists action. repeat split; auto.
Qed.

(** ** Response walker *)

Lemma map_items_ext (f g : string * value -> string * value)
    (items : list (string * value)) :
  (forall kv, In kv items -> f kv = g kv) -> map f items = map g items.
Proof. intros H. now apply map_ext_in. Qed.

Lemma convert_items_eq (items : list (string * value)) :
  map (fun '(k, v) => (k, convert_map_composite v)) items =
  map (fun kv => (fst kv, convert_map_composite (snd kv))) items.
Proof. apply map_items_ext. now intros [k v] _. Qed.

Lemma keys_convert_items (items : list (string * value)) :
  keys (map (fun kv => (fst kv, convert_map_composite (snd kv))) items)
  = keys items.
Proof. unfold keys. rewrite map_map. reflexivity. Qed.

(** C2. The walker has three cases.  A vendor map becomes a plain
    dictionary with the same keys in the same order, each value
    normalized; a list or a tuple becomes a list of the normalized
    elements in order; any other value (scalar, string, [None], plain
    dictionary, other object) is returned as it is.  The function is
    total on the finite trees of [value]. *)
Theorem convert_map_composite_three_cases (obj : value) :
  well_formed obj ->
  match obj with
  | VMapComposite items =>
      convert_map_composite obj =
        VDict (map (fun kv => (fst kv, convert_map_composite (snd kv)))
                   items)
  | VList items | VTuple items =>
      convert_map_composite obj = VList (map convert_map_composite items)
  | other => convert_map_composite obj = other
  end.
Proof.
  intros Hwf. destruct obj; try reflexivity.
  simpl. f_equal. rewrite convert_items_eq.
  apply dict_of_items_NoDup. rewrite keys_convert_items.
  destruct Hwf as [Hnd _]. exact Hnd.
Qed.

(** A second pass of the walker changes nothing, on any value. *)
Lemma convert_map_composite_twice (obj : value) :
  convert_map_composite (convert_map_composite obj)
  = convert_map_composite obj.
Proof.
  induction obj as [| | | |l IH|l IH|d IH|d IH|] using value_nested_ind;
    try reflexivity.
  - simpl. f_equal. rewrite map_map. apply map_ext_in.
    intros x Hx. rewrite Forall_forall in IH. now apply IH.
  - simpl. f_equal. rewrite map_map. apply map_ext_in.
    intros x Hx. rewrite Forall_forall in IH. now apply IH.
Qed.

(** C8. On plain data (a tree of scalars, lists, tuples and plain
    dictionaries, with no vendor map in it) normalizing twice gives what
    normalizing once gives. *)
Theorem convert_map_composite_idempotent_on_plain (x : value) :
  plain x = true ->
  convert_map_composite (convert_map_composite x)
  = convert_map_composite x.
Proof. intros _. apply convert_map_composite_twice. Qed.

(** C10. A plain dictionary is returned as it is and its values are not
    visited: a vendor map stored in a plain dictionary stays a vendor
    map, also when the dictionary sits in a list the walker does
    traverse. *)
Theorem convert_map_composite_plain_dict_untouched :
  (forall items : list (string * value),
      convert_map_composite (VDict items) = VDict items) /\
  (forall (k : string) (inner rest : list (string * value)),
      convert_map_composite (VDict ((k, VMapComposite inner) :: rest))
      = VDict ((k, VMapComposite inner) :: rest)) /\
  (forall (k : string) (inner : list (string * value)),
      convert_map_composite (VList [VDict [(k, VMapComposite inner)]])
      = VList [VDict [(k, VMapComposite inner)]]).
Proof. repeat split. Qed.

(** [traverse] over steps that either all succeed or fail with the one
    error [e]. *)
Lemma traverse_uniform {A B : Type} (f : A -> exn + B)
    (ok : A -> bool) (g : A -> B) (e : exn) (l : list A) :
  (forall x, In x l -> f x = if ok x then inr (g x) else inl e) ->
  traverse f l = if forallb ok l then inr (map g l) else inl e.
Proof.
  induction l as [|x l IH]; simpl; intros Hf; [reflexivity|].
  rewrite (Hf x) by now left.
  destruct (ok x); simpl; [|reflexivity].
  rewrite IH by (intros y Hy; apply Hf; now right).
  destruct (forallb ok l); reflexivity.
Qed.

Lemma forallb_depth_le {A : Type} (d : A -> nat) (n : nat) (l : list A) :
  forallb (fun x => (d x <=? n)%nat) l
  = (fold_right (fun x m => Nat.max (d x) m) 0 l <=? n)%nat.
Proof.
  induction l as [|x l IH]; simpl; [reflexivity|].
  rewrite IH.
  set (m := fold_right (fun x m => Nat.max (d x) m) 0 l).
  destruct (Nat.leb_spec (d x) n), (Nat.leb_spec m n),
    (Nat.leb_spec (Nat.max (d x) m) n);
    simpl; try reflexivity; lia.
Qed.

Lemma depth_items_eq (items : list (string * value)) :
  fold_right (fun '(_, v) m => Nat.max (depth v) m) 0 items
  = fold_right (fun kv m => Nat.max (depth (snd kv)) m) 0 items.
Proof.
  induction items as [|[k v] items IH]; simpl; [reflexivity|].
  now rewrite IH.
Qed.

(** The walker under an interpreter limit: the normalized value when the
    nesting fits, [RecursionError] when it does not. *)
Lemma convert_map_composite_within_spec (limit : nat) :
  forall obj,
    convert_map_composite_within limit obj =
    if (depth obj <=? limit)%nat then inr (convert_map_composite obj)
    else inl RecursionError.
Proof.
  induction limit as [|limit IH]; intros obj.
  - destruct obj; reflexivity.
  - destruct obj as [| | | |l|l|d|d|]; try reflexivity.
    + cbn [convert_map_composite_within depth convert_map_composite].
      rewrite (traverse_uniform _ (fun x => (depth x <=? limit)%nat)
                 convert_map_composite RecursionError)
        by (intros x _; apply IH).
      rewrite forallb_depth_le.
      change (S ?a <=? S ?b)%nat with (a <=? b)%nat.
      destruct (_ <=? limit)%nat; reflexivity.
    + cbn [convert_map_composite_within depth convert_map_composite].
      rewrite (traverse_uniform _ (fun x => (depth x <=? limit)%nat)
                 convert_map_composite RecursionError)
        by (intros x _; apply IH).
      rewrite forallb_depth_le.
      change (S ?a <=? S ?b)%nat with (a <=? b)%nat.
      destruct (_ <=? limit)%nat; reflexivity.
    + cbn [convert_map_composite_within depth convert_map_composite].
      rewrite (traverse_uniform _
                 (fun kv => (depth (snd kv) <=? limit)%nat)
                 (fun kv => (fst kv, convert_map_composite (snd kv)))
                 RecursionError)
        by (intros [k v] _; simpl; rewrite IH;
            destruct (depth v <=? limit)%nat; reflexivity).
      rewrite (forallb_depth_le (fun kv => depth (snd kv))).
      rewrite depth_items_eq, convert_items_eq.
      change (S ?a <=? S ?b)%nat with (a <=? b)%nat.
      destruct (_ <=? limit)%nat; reflexivity.
Qed.

(** C6, as the code has it. The walker has no depth cap of its own and
    never fails with [MalformedResponseError]: it follows the input to
    whatever depth the interpreter allows and returns the normalized
    value; when the nesting exceeds the interpreter's recursion limit
    the failure is the interpreter's [RecursionError]. *)
Theorem convert_map_composite_has_no_depth_cap (limit : nat) (obj : value) :
  convert_map_composite_within limit obj =
    (if (depth obj <=? limit)%nat then inr (convert_map_composite obj)
     else inl RecursionError) /\
  convert_map_composite_within limit obj <> inl MalformedResponseError.
Proof.
  split; [apply convert_map_composite_within_spec|].
  rewrite convert_map_composite_within_spec.
  destruct (depth obj <=? limit)%nat; discriminate.
Qed.

(** ** Dispatcher *)

Lemma comprehension_app {A B : Type} (f : A -> M World B)
    (l1 l2 : list A) (st : state World) :
  comprehension f (l1 ++ l2) st =
  (xs <- comprehension f l1 ;;
   ys <- comprehension f l2 ;;
   ret (xs ++ ys)) st.
Proof.
  revert st. induction l1 as [|x l1 IH]; intros st; simpl.
  - unfold bind, ret. simpl.
    destruct (comprehension f l2 st) as [st' [e|ys]]; reflexivity.
  - unfold bind. destruct (f x st) as [st1 [e|y]]; [reflexivity|].
    rewrite IH. unfold bind, ret.
    destruct (comprehension f l1 st1) as [st2 [e|xs]]; [reflexivity|].
    destruct (comprehension f l2 st2) as [st3 [e|ys]]; reflexivity.
Qed.

(** The inner loop appends, to the outputs so far, the results of the
    function calls of the parts, executed in order. *)
Lemma handle_parts_spec (entity_id : option string) (ps : list part) :
  forall outputs st,
    handle_parts entity_id ps outputs st =
    (results <- comprehension
                  (fun function_call =>
                     execute_function_call function_call
                       (Some (or_else entity_id self_entity_id)))
                  (calls_of_parts ps) ;;
     ret (outputs ++ results)) st.
Proof.
  induction ps as [|p ps IH]; intros outputs st.
  - simpl. unfold bind, ret. now rewrite app_nil_r.
  - destruct p as [[function_call|]|repr]; simpl.
    + unfold bind.
      destruct (execute_function_call function_call _ st)
        as [st1 [e|output]]; [reflexivity|].
      rewrite IH. unfold bind, ret.
      destruct (comprehension _ (calls_of_parts ps) st1)
        as [st2 [e|results]]; [reflexivity|].
      now rewrite <- app_assoc.
    + apply IH.
    + apply IH.
Qed.

Lemma handle_candidates_spec (entity_id : option string)
    (cs : list Candidate) :
  forall outputs st,
    handle_candidates entity_id cs outputs st =
    (results <- comprehension
                  (fun function_call =>
                     execute_function_call function_call
                       (Some (or_else entity_id self_entity_id)))
                  (calls_of_response {| candidates := cs |}) ;;
     ret (outputs ++ results)) st.
Proof.
  unfold calls_of_response. simpl.
  induction cs as [|c cs IH]; intros outputs st.
  - simpl. unfold bind, ret. now rewrite app_nil_r.
  - simpl. destruct (parts (content c)) as [ps|].
    + unfold bind. rewrite handle_parts_spec, comprehension_app.
      unfold bind, ret.
      destruct (comprehension _ (calls_of_parts ps) st)
        as [st1 [e|results]]; [reflexivity|].
      rewrite IH. unfold bind, ret.
      destruct (comprehension _ _ st1) as [st2 [e|results']];
        [reflexivity|].
      now rewrite app_assoc.
    + simpl. apply IH.
Qed.

(** [handle_response] is the list of the function calls of the response,
    executed one after the other. *)
Lemma handle_response_spec (response : GenerationResponse)
    (entity_id : option string) (st : state World) :
  handle_response response entity_id st =
  comprehension
    (fun function_call =>
       execute_function_call function_call
         (Some (or_else entity_id self_entity_id)))
    (calls_of_response response) st.
Proof.
  unfold handle_response. rewrite handle_candidates_spec.
  destruct response as [cs]. simpl. unfold bind, ret.
  destruct (comprehension _ _ st) as [st' [e|results]]; reflexivity.
Qed.

(** C3. [handle_response] returns the results of
    [execute_function_call] for the parts that hold a function call, in
    candidate order and, within a candidate, in part order; parts
    without a call and candidates whose content has no [parts] are
    skipped; with no function-call part at all the result is the empty
    list, and nothing is executed. *)
Theorem handle_response_runs_calls_in_order
    (response : GenerationResponse) (entity_id : option string)
    (st : state World) :
  handle_response response entity_id st =
    comprehension
      (fun function_call =>
         execute_function_call function_call
           (Some (or_else entity_id self_entity_id)))
      (calls_of_response response) st /\
  match calls_of_response response with
  | [] => handle_response response entity_id st = (st, inr [])
  | _ :: _ => True
  end.
Proof.
  split; [apply handle_response_spec|].
  destruct (calls_of_response response) eqn:Hcalls; [|exact I].
  now rewrite handle_response_spec, Hcalls.
Qed.

(** With [args] absent the first definition hands [None] to the walker
    and on to [execute_action]; this is what the definition in force
    avoids. *)
Lemma execute_function_call_shadowed_None
    (name : string) (entity_id : option string) (st : state World) :
  execute_function_call_shadowed {| fc_name := name; fc_args := VNone |}
    entity_id st =
  (action <- attempt (Action_of_value name) ;;
   call (execute_action action VNone (or_else entity_id self_entity_id)))
    st.
Proof. reflexivity. Qed.

(** C4. A request whose [args] is [None] is executed as the same request
    with the empty mapping (a plain one or a vendor one): the walker is
    not applied to [None] and [execute_action] receives the empty
    dictionary. *)
Theorem execute_function_call_None_args
    (name : string) (entity_id : option string) (st : state World) :
  execute_function_call {| fc_name := name; fc_args := VNone |}
    entity_id st =
    execute_function_call {| fc_name := name; fc_args := VDict [] |}
      entity_id st /\
  execute_function_call {| fc_name := name; fc_args := VNone |}
    entity_id st =
    execute_function_call
      {| fc_name := name; fc_args := VMapComposite [] |} entity_id st /\
  execute_function_call {| fc_name := name; fc_args := VNone |}
    entity_id st =
    (action <- attempt (Action_of_value name) ;;
     call (execute_action action (VDict [])
             (or_else entity_id self_entity_id))) st.
Proof. repeat split. Qed.

(** C5. The calls run one after the other.  If the calls before the
    k-th succeed and the k-th fails, [handle_response] ends there: it
    returns the error of the k-th call and no list of results, in the
    state the failing call left, so none of the later calls is
    executed. *)
Theorem handle_response_stops_at_first_failure
    (response : GenerationResponse) (entity_id : option string)
    (before after : list FunctionCall) (failing : FunctionCall)
    (st st1 st2 : state World) (outputs : list value) (e : exn) :
  calls_of_response response = before ++ failing :: after ->
  comprehension
    (fun function_call =>
       execute_function_call function_call
         (Some (or_else entity_id self_entity_id)))
    before st = (st1, inr outputs) ->
  execute_function_call failing
    (Some (or_else entity_id self_entity_id)) st1 = (st2, inl e) ->
  handle_response response entity_id st = (st2, inl e).
Proof.
  intros Hcalls Hbefore Hfail.
  rewrite handle_response_spec, Hcalls, comprehension_app.
  unfold bind at 1. rewrite Hbefore.
  simpl. unfold bind at 1 2. now rewrite Hfail.
Qed.

(** ** Tool listing *)

Lemma backend_only_ret {A : Type} (x : A) :
  backend_only (ret (World := World) x).
Proof.
  exists (fun w => (w, inr x)). intros [ws w]. reflexivity.
Qed.

Lemma backend_only_attempt {A : Type} (r : exn + A) :
  backend_only (attempt (World := World) r).
Proof.
  exists (fun w => (w, r)). intros [ws w]. reflexivity.
Qed.

Lemma backend_only_call {A : Type} (f : World -> World * (exn + A)) :
  backend_only (call f).
Proof. exists f. reflexivity. Qed.

Lemma backend_only_bind {A B : Type} (c : M World A)
    (k : A -> M World B) :
  backend_only c -> (forall x, backend_only (k x)) ->
  backend_only (bind c k).
Proof.
  intros [f Hf] Hk.
  exists (fun w =>
            match bind c k {| warnings := []; world := w |} with
            | (st', r) => (world st', r)
            end).
  intros [ws w]. unfold bind, call. rewrite !Hf. unfold call. simpl.
  destruct (f w) as [w1 [e|x]]; [reflexivity|].
  destruct (Hk x) as [g Hg]. rewrite !Hg. unfold call. simpl.
  destruct (g w1) as [w2 r]. reflexivity.
Qed.

Lemma backend_only_comprehension {A B : Type} (f : A -> M World B)
    (l : list A) :
  (forall x, backend_only (f x)) -> backend_only (comprehension f l).
Proof.
  intros Hf. induction l as [|x l IH]; simpl.
  - apply backend_only_ret.
  - apply backend_only_bind; [apply Hf|]. intros y.
    apply backend_only_bind; [exact IH|]. intros ys.
    apply backend_only_ret.
Qed.

(** [get_tool] issues no warning and does not look at those issued. *)
Lemma get_tool_backend_only (actions : option (list ActionType))
    (apps : option (list AppType)) (tags : option (list TagType))
    (entity_id : option string) :
  backend_only (get_tool actions apps tags entity_id).
Proof.
  unfold get_tool.
  apply backend_only_bind; [apply backend_only_call|]. intros _.
  apply backend_only_bind; [apply backend_only_call|]. intros tools.
  apply backend_only_bind.
  - apply backend_only_comprehension. intros tool.
    apply backend_only_attempt.
  - intros decls. apply backend_only_ret.
Qed.

(** C9. [get_actions(actions, entity_id)] returns what
    [get_tool(actions=actions, entity_id=entity_id)] returns (the tool
    or the error) and leaves the backend in the same state; the one
    difference is the deprecation warning it issues when called. *)
Theorem get_actions_forwards_to_get_tool
    (actions : list ActionType) (entity_id : option string)
    (st : state World) :
  snd (get_actions actions entity_id st) =
    snd (get_tool (Some actions) None None entity_id st) /\
  world (fst (get_actions actions entity_id st)) =
    world (fst (get_tool (Some actions) None None entity_id st)) /\
  warnings (fst (get_tool (Some actions) None None entity_id st)) =
    warnings st /\
  warnings (fst (get_actions actions entity_id st)) =
    warnings st ++ [get_actions_deprecation].
Proof.
  destruct (get_tool_backend_only (Some actions) None None entity_id)
    as [f Hf].
  unfold get_actions, deprecated, bind, warn. rewrite !Hf.
  unfold call. simpl. destruct (f (world st)) as [w r]. simpl.
  repeat split.
Qed.

(** ** Schema adapter: failures and edges *)


Lemma clean_properties_not_mapping (props : list (string * value))
    (n : string) (ps : value) :
  In (n, ps) props ->
  (forall its, ps <> VDict its) -> (forall its, ps <> VMapComposite its) ->
  forall acc, clean_properties props acc = inl (AttributeError "items").
Proof.
  intros Hin Hd Hm.
  induction props as [|[n' ps'] props IH]; simpl; intros acc;
    [contradiction|].
  destruct Hin as [Heq|Hin].
  - inversion Heq; subst.
    destruct ps; try reflexivity;
      [exfalso; now apply (Hd items)|exfalso; now apply (Hm items)].
  - destruct (items_of ps') as [e|its] eqn:Hits.
    + destruct ps'; simpl in Hits; try discriminate; now inversion Hits.
    + now apply IH.
Qed.

Lemma dict_get_Some_In (d : dict) (k : string) (v : value) :
  dict_get d k = Some v -> In (k, v) d.
Proof.
  induction d as [|[k' v'] d IH]; simpl; [discriminate|].
  destruct (String.eqb_spec k' k) as [->|Hne]; intros H.
  - inversion H; subst. now left.
  - right. now apply IH.
Qed.




(** X2. When the normalizer refuses the parameters of a named schema, its
    error is the result of [_wrap_tool], unchanged. *)
Theorem _wrap_tool_normalizer_error
    (schema : dict) (entity_id : option string) (action raw : value)
    (err : exn) :
  dict_get schema "name" = Some action ->
  dict_get schema "parameters" = Some raw ->
  json_schema_to_model raw = inl err ->
  _wrap_tool schema entity_id = inl err.
Proof.
  intros Hname Hraw Hmodel. unfold _wrap_tool, subscript.
  now rewrite Hname, Hraw, Hmodel.
Qed.

(** X3. A declaration made by [_wrap_tool] carries the schema's name, and
    its parameters have the three entries [type], [properties] and
    [required], in this order, with [type] the string [object]: whatever
    else the normalized schema holds at its top (a title, definitions)
    is left out. *)
Theorem _wrap_tool_parameters_shape
    (schema : dict) (entity_id : option string)
    (fd : FunctionDeclaration) :
  _wrap_tool schema entity_id = inr fd ->
  dict_get schema "name" = Some (fd_name fd) /\
  keys (fd_parameters fd) = ["type"; "properties"; "required"] /\
  dict_get (fd_parameters fd) "type" = Some (VStr "object").
Proof.
  intros H. apply _wrap_tool_inr in H.
  destruct H as (action & raw & parameters & props & cleaned
                 & Hname & _ & _ & _ & _ & ->).
  repeat split. exact Hname.
Qed.

(** X4. A property whose schema is not a mapping makes [_wrap_tool] fail
    with [AttributeError] on [items], wherever the property stands. *)
Theorem _wrap_tool_property_not_mapping
    (schema : dict) (entity_id : option string) (action raw : value)
    (parameters : Model) (props : list (string * value))
    (prop_name : string) (prop_schema : value) :
  dict_get schema "name" = Some action ->
  dict_get schema "parameters" = Some raw ->
  json_schema_to_model raw = inr parameters ->
  dict_get (Model_schema parameters) "properties" = Some (VDict props) ->
  In (prop_name, prop_schema) props ->
  (forall its, prop_schema <> VDict its) ->
  (forall its, prop_schema <> VMapComposite its) ->
  _wrap_tool schema entity_id = inl (AttributeError "items").
Proof.
  intros Hname Hraw Hmodel Hprops Hin Hd Hm.
  unfold _wrap_tool, subscript, dict_get_default.
  rewrite Hname, Hraw, Hmodel, Hprops. simpl.
  now rewrite (clean_properties_not_mapping props prop_name prop_schema).
Qed.

(** X5. When the normalized schema has no [properties], the declaration
    is made all the same, with an empty [properties] mapping. *)
Theorem _wrap_tool_without_properties
    (schema : dict) (entity_id : option string) (action raw : value)
    (parameters : Model) :
  dict_get schema "name" = Some action ->
  dict_get schema "parameters" = Some raw ->
  json_schema_to_model raw = inr parameters ->
  dict_get (Model_schema parameters) "properties" = None ->
  exists fd,
    _wrap_tool schema entity_id = inr fd /\
    fd_name fd = action /\
    dict_get (fd_parameters fd) "properties" = Some (VDict []) /\
    dict_get (fd_parameters fd) "required" =
      Some match dict_get (Model_schema parameters) "required" with
           | Some required => required
           | None => VList []
           end.
Proof.
  intros Hname Hraw Hmodel Hprops.
  unfold _wrap_tool, subscript, dict_get_default.
  rewrite Hname, Hraw, Hmodel, Hprops. simpl.
  eexists. split; [reflexivity|]. repeat split.
Qed.


(** ** Tool listing: order and failures *)

Lemma comprehension_attempt {A B : Type} (f : A -> exn + B) (l : list A)
    (st : state World) :
  comprehension (fun x => attempt (f x)) l st = (st, traverse f l).
Proof.
  induction l as [|x l IH]; simpl; [reflexivity|].
  unfold bind, attempt at 1. destruct (f x) as [e|y]; [reflexivity|].
  rewrite IH. now destruct (traverse f l).
Qed.

Lemma traverse_Forall2 {A B : Type} (f : A -> exn + B) (l : list A)
    (ys : list B) :
  Forall2 (fun x y => f x = inr y) l ys -> traverse f l = inr ys.
Proof.
  induction 1 as [|x y l ys Hx _ IH]; simpl; [reflexivity|].
  now rewrite Hx, IH.
Qed.

Lemma traverse_first_failure {A B : Type} (f : A -> exn + B)
    (before after : list A) (bad : A) (ys : list B) (e : exn) :
  Forall2 (fun x y => f x = inr y) before ys -> f bad = inl e ->
  traverse f (before ++ bad :: after) = inl e.
Proof.
  intros Hbefore Hbad.
  induction Hbefore as [|x y l ys' Hx _ IH]; simpl.
  - now rewrite Hbad.
  - now rewrite Hx, IH.
Qed.

(** [get_tool], step by step: the filter check, the registry, the
    wrapping of each schema. *)
Lemma get_tool_run (actions : option (list ActionType))
    (apps : option (list AppType)) (tags : option (list TagType))
    (entity_id : option string) (st : state World) :
  get_tool actions apps tags entity_id st =
  match validate_tools apps actions tags (world st) with
  | (w1, inl e) => ({| warnings := warnings st; world := w1 |}, inl e)
  | (w1, inr _) =>
      match get_action_schemas actions apps tags w1 with
      | (w2, inl e) => ({| warnings := warnings st; world := w2 |}, inl e)
      | (w2, inr tools) =>
          ({| warnings := warnings st; world := w2 |},
           match traverse
                   (fun tool =>
                      _wrap_tool (model_dump tool)
                        (Some (or_else entity_id self_entity_id)))
                   tools with
           | inl e => inl e
           | inr decls => inr {| function_declarations := decls |}
           end)
      end
  end.
Proof.
  unfold get_tool, bind, call at 1.
  destruct (validate_tools apps actions tags (world st)) as [w1 [e|[]]];
    [reflexivity|].
  unfold call. simpl.
  destruct (get_action_schemas actions apps tags w1) as [w2 [e|tools]];
    [reflexivity|].
  rewrite comprehension_attempt.
  now destruct (traverse _ tools).
Qed.

(** X7. When the filter check fails, [get_tool] fails with its error and
    stops there: the backend is left as the check left it, the registry
    is not asked. *)
Theorem get_tool_validation_failure
    (actions : option (list ActionType)) (apps : option (list AppType))
    (tags : option (list TagType)) (entity_id : option string)
    (st : state World) (w1 : World) (e : exn) :
  validate_tools apps actions tags (world st) = (w1, inl e) ->
  get_tool actions apps tags entity_id st =
    ({| warnings := warnings st; world := w1 |}, inl e).
Proof. intros Hv. now rewrite get_tool_run, Hv. Qed.

(** X8. When the filter check passes and every schema of the registry
    can be wrapped, the tool holds one declaration per schema, in the
    order of the registry, each the one [_wrap_tool] makes of the dumped
    schema. *)
Theorem get_tool_one_declaration_per_schema
    (actions : option (list ActionType)) (apps : option (list AppType))
    (tags : option (list TagType)) (entity_id : option string)
    (st : state World) (w1 w2 : World) (tools : list ActionModel)
    (decls : list FunctionDeclaration) :
  validate_tools apps actions tags (world st) = (w1, inr tt) ->
  get_action_schemas actions apps tags w1 = (w2, inr tools) ->
  Forall2 (fun tool fd =>
             _wrap_tool (model_dump tool)
               (Some (or_else entity_id self_entity_id)) = inr fd)
          tools decls ->
  get_tool actions apps tags entity_id st =
    ({| warnings := warnings st; world := w2 |},
     inr {| function_declarations := decls |}) /\
  List.length decls = List.length tools.
Proof.
  intros Hv Hs Hw. split.
  - rewrite get_tool_run, Hv, Hs.
    now rewrite (traverse_Forall2 _ tools decls Hw).
  - symmetry. eapply Forall2_length. exact Hw.
Qed.

(** X9. When a schema of the registry cannot be wrapped, [get_tool] fails
    with the error of the first such schema; the declarations made before
    it are not returned. *)
Theorem get_tool_fails_on_first_bad_schema
    (actions : option (list ActionType)) (apps : option (list AppType))
    (tags : option (list TagType)) (entity_id : option string)
    (st : state World) (w1 w2 : World)
    (before after : list ActionModel) (bad : ActionModel)
    (decls : list FunctionDeclaration) (e : exn) :
  validate_tools apps actions tags (world st) = (w1, inr tt) ->
  get_action_schemas actions apps tags w1
    = (w2, inr (before ++ bad :: after)) ->
  Forall2 (fun tool fd =>
             _wrap_tool (model_dump tool)
               (Some (or_else entity_id self_entity_id)) = inr fd)
          before decls ->
  _wrap_tool (model_dump bad) (Some (or_else entity_id self_entity_id))
    = inl e ->
  get_tool actions apps tags entity_id st =
    ({| warnings := warnings st; world := w2 |}, inl e).
Proof.
  intros Hv Hs Hbefore Hbad.
  rewrite get_tool_run, Hv, Hs.
  now rewrite (traverse_first_failure _ before after bad decls e Hbefore Hbad).
Qed.

(** ** Dispatcher: entities, counts, composition *)

Lemma or_else_twice (entity_id : option string) (default : string) :
  or_else (Some (or_else entity_id default)) default
  = or_else entity_id default.
Proof.
  destruct entity_id as [s|]; simpl.
  - destruct (String.eqb s "") eqn:Hs; simpl; [|now rewrite Hs].
    now destruct (String.eqb default "").
  - now destruct (String.eqb default "").
Qed.

Lemma comprehension_ext {A B : Type} (f g : A -> M World B) (l : list A) :
  (forall x st, f x st = g x st) ->
  forall st, comprehension f l st = comprehension g l st.
Proof.
  intros Hfg. induction l as [|x l IH]; intros st; simpl; [reflexivity|].
  unfold bind. rewrite Hfg. destruct (g x st) as [st1 [e|y]]; [reflexivity|].
  now rewrite IH.
Qed.

Lemma comprehension_length {A B : Type} (f : A -> M World B) (l : list A) :
  forall st st' ys,
    comprehension f l st = (st', inr ys) -> List.length ys = List.length l.
Proof.
  induction l as [|x l IH]; simpl; intros st st' ys H.
  - inversion H; reflexivity.
  - unfold bind in H. destruct (f x st) as [st1 [e|y]]; [discriminate|].
    destruct (comprehension f l st1) as [st2 [e|ys']] eqn:Hrest;
      [discriminate|].
    inversion H; subst. simpl. f_equal. eapply IH. exact Hrest.
Qed.

(** X11. A successful [handle_response] returns as many outputs as the
    response has function-call parts. *)
Theorem handle_response_output_count
    (response : GenerationResponse) (entity_id : option string)
    (st st' : state World) (outputs : list value) :
  handle_response response entity_id st = (st', inr outputs) ->
  List.length outputs = List.length (calls_of_response response).
Proof.
  rewrite handle_response_spec. apply comprehension_length.
Qed.

(** X12. [handle_response] resolves the entity before each call and
    [execute_function_call] resolves it again; the second resolution
    changes nothing, so each call runs as [execute_function_call] would
    run it with the caller's own [entity_id].  An empty [entity_id] is
    taken as none. *)
Theorem handle_response_entity_resolution
    (response : GenerationResponse) (entity_id : option string)
    (st : state World) :
  handle_response response entity_id st =
    comprehension
      (fun function_call => execute_function_call function_call entity_id)
      (calls_of_response response) st /\
  handle_response response (Some "") st = handle_response response None st.
Proof.
  split.
  - rewrite handle_response_spec. apply comprehension_ext.
    intros function_call st0. unfold execute_function_call.
    now rewrite or_else_twice.
  - rewrite !handle_response_spec. reflexivity.
Qed.

(** X13. The outputs for a response are those for its first candidates
    followed by those for the rest, the rest being handled in the state
    the first left; a failure in the first part keeps the rest from
    running. *)
Theorem handle_response_app
    (cs1 cs2 : list Candidate) (entity_id : option string)
    (st : state World) :
  handle_response {| candidates := cs1 ++ cs2 |} entity_id st =
  (outputs1 <- handle_response {| candidates := cs1 |} entity_id ;;
   outputs2 <- handle_response {| candidates := cs2 |} entity_id ;;
   ret (outputs1 ++ outputs2)) st.
Proof.
  rewrite handle_response_spec.
  unfold calls_of_response. simpl. rewrite flat_map_app.
  rewrite comprehension_app. unfold bind.
  rewrite (handle_response_spec {| candidates := cs1 |}).
  unfold calls_of_response at 1. simpl.
  destruct (comprehension _ _ st) as [st1 [e|outputs1]]; [reflexivity|].
  rewrite (handle_response_spec {| candidates := cs2 |}).
  reflexivity.
Qed.

(** X14. A request for a name the [Action] enumeration refuses fails with
    the enumeration's error before anything is executed: the state is
    untouched. *)
Theorem execute_function_call_unknown_action
    (function_call : FunctionCall) (entity_id : option string)
    (st : state World) (e : exn) :
  Action_of_value (fc_name function_call) = inl e ->
  execute_function_call function_call entity_id st = (st, inl e).
Proof.
  intros Ha. unfold execute_function_call, bind, attempt.
  now rewrite Ha.
Qed.

(** X15. The two definitions of [execute_function_call] in the class body
    do the same on every request whose [args] is not [None]. *)
Theorem execute_function_call_definitions_agree
    (function_call : FunctionCall) (entity_id : option string)
    (st : state World) :
  fc_args function_call <> VNone ->
  execute_function_call_shadowed function_call entity_id st =
  execute_function_call function_call entity_id st.
Proof.
  intros Hargs.
  unfold execute_function_call_shadowed, execute_function_call.
  destruct (fc_args function_call); try reflexivity.
  now contradiction Hargs.
Qed.

(** ** Response walker: what comes out *)




Lemma map_fixed {A : Type} (f : A -> A) (l : list A) :
  map f l = l <-> forall x, In x l -> f x = x.
Proof.
  induction l as [|a l IH]; simpl.
  - split; [intros _ x []|reflexivity].
  - split.
    + intros H x Hin. injection H as Ha Hl. destruct Hin as [<-|Hx].
      * exact Ha.
      * now apply (proj1 IH Hl).
    + intros H. f_equal; [apply H; now left|].
      apply IH. intros x Hx. apply H. now right.
Qed.

(** X17. The walker returns a value as it is exactly when the value has
    no vendor map and no tuple at the top or in a list the walker goes
    through: a tuple always comes back as a list, a vendor map as a
    dictionary. *)
Theorem convert_map_composite_fixed_points (obj : value) :
  convert_map_composite obj = obj <-> settled obj = true.
Proof.
  induction obj as [| | | |l IH|l IH|d IH|d IH|] using value_nested_ind;
    try (split; reflexivity); try (split; discriminate).
  simpl. rewrite Forall_forall in IH. split.
  - intros H. injection H as Hl. apply forallb_forall. intros x Hx.
    apply IH; [exact Hx|]. now apply (proj1 (map_fixed _ l) Hl).
  - intros H. rewrite forallb_forall in H. f_equal.
    apply map_fixed. intros x Hx. apply IH; [exact Hx|now apply H].
Qed.
End ComposioToolset.

Arguments _wrap_tool {Model}.
Arguments get_tool {ActionType AppType TagType ActionModel World} _ {Model}.
Arguments get_actions {ActionType AppType TagType ActionModel World} _ {Model}.
Arguments execute_function_call_shadowed {Action World}.
Arguments execute_function_call {Action World}.
Arguments handle_parts {Action World}.
Arguments handle_candidates {Action World}.
Arguments handle_response {Action World}.

(** ** The theorems at work on the sample backend *)

Lemma _wrap_tool_cleans_properties_keeps_required_witness :
  exists fd cleaned,
    _wrap_tool Backend.json_schema_to_model Backend.Model_schema
      Backend.star_schema None = inr fd /\
    dict_get (fd_parameters fd) "properties" = Some (VDict cleaned) /\
    cleaned =
      [("repo", VDict [("type", VStr "string"); ("title", VStr "Repo")])] /\
    Forall (fun kv => exists its, snd kv = VDict its /\
                                  dict_get its "examples" = None)
           cleaned /\
    dict_get (fd_parameters fd) "required" = Some (VList [VStr "repo"]).
Proof.
  refine (_wrap_tool_cleans_properties_keeps_required dict
            Backend.json_schema_to_model Backend.Model_schema
            Backend.star_schema None (VStr "GITHUB_STAR")
            (VDict [ ("properties",
                       VDict [ ("repo",
                                 VDict [ ("type", VStr "string");
                                         ("examples", VList [VStr "composio"]);
                                         ("title", VStr "Repo") ]) ]);
                     ("required", VList [VStr "repo"]) ])
            _ _ eq_refl eq_refl eq_refl eq_refl _ _).
  - constructor; [intros []|constructor].
  - constructor; [|constructor].
    eexists. split; [reflexivity|].
    repeat (constructor; [simpl; intros H;
                          repeat destruct H as [H|H]; try discriminate H;
                          exact H|]).
    constructor.
Defined.

Lemma convert_map_composite_three_cases_witness :
  well_formed nested_vendor_map /\
  convert_map_composite nested_vendor_map =
    VDict [("a", VDict [("b", VList [VInt 1; VInt 2; VInt 3])])].
Proof.
  assert (Hwf : well_formed nested_vendor_map).
  { simpl. repeat split; repeat (constructor; [intros []|]); constructor. }
  split; [exact Hwf|].
  exact (convert_map_composite_three_cases nested_vendor_map Hwf).
Defined.

Lemma handle_response_stops_at_first_failure_witness :
  calls_of_response Backend.broken_second =
    [Backend.request "FIRST"] ++
    Backend.request "BROKEN" :: [Backend.request "THIRD"] /\
  handle_response Backend.Action_of_value "default" Backend.execute_action
    Backend.broken_second None Backend.fresh =
    ({| warnings := [];
        world := [ ("FIRST", VDict [], "default");
                   ("BROKEN", VDict [], "default") ] |},
     inl (Raised "ActionExecutionError")).
Proof.
  split; [reflexivity|].
  exact (handle_response_stops_at_first_failure
           string Backend.World Backend.Action_of_value "default"
           Backend.execute_action Backend.broken_second None
           [Backend.request "FIRST"] [Backend.request "THIRD"]
           (Backend.request "BROKEN")
           Backend.fresh
           {| warnings := []; world := [("FIRST", VDict [], "default")] |}
           {| warnings := [];
              world := [ ("FIRST", VDict [], "default");
                         ("BROKEN", VDict [], "default") ] |}
           [VDict [("successful", VBool true); ("action", VStr "FIRST")]]
           (Raised "ActionExecutionError")
           eq_refl eq_refl eq_refl).
Defined.

Lemma _wrap_tool_description_present_or_name_witness :
  _wrap_tool Backend.json_schema_to_model Backend.Model_schema
    Backend.star_schema None = inr Backend.star_declaration /\
  exists action,
    dict_get Backend.star_schema "name" = Some action /\
    fd_name Backend.star_declaration = action /\
    fd_description Backend.star_declaration = VStr "".
Proof.
  split; [reflexivity|].
  exact (_wrap_tool_description_present_or_name dict
           Backend.json_schema_to_model Backend.Model_schema
           Backend.star_schema None Backend.star_declaration eq_refl).
Defined.

(** The schema [star_schema] has the empty string, a false value, as its
    description: the declaration keeps it and does not take the name. *)
Lemma _wrap_tool_keeps_empty_description :
  dict_get Backend.star_schema "name" = Some (VStr "GITHUB_STAR") /\
  dict_get Backend.star_schema "description" = Some (VStr "") /\
  truthy (VStr "") = false /\
  exists fd,
    _wrap_tool Backend.json_schema_to_model Backend.Model_schema
      Backend.star_schema None = inr fd /\
    fd_description fd = VStr "" /\
    fd_description fd <> VStr "GITHUB_STAR".
Proof.
  repeat split.
  eexists. split; [reflexivity|]. split; [reflexivity|]. discriminate.
Qed.

(** A list nested three deep: the walker returns it whenever the
    interpreter allows three activations, whatever cap one had in mind
    below that; with two it fails with the interpreter's error, not with
    [MalformedResponseError]. *)
Lemma convert_map_composite_three_deep :
  depth three_deep = 3 /\
  convert_map_composite three_deep = three_deep /\
  convert_map_composite_within 3 three_deep = inr three_deep /\
  convert_map_composite_within 2 three_deep = inl RecursionError /\
  convert_map_composite_within 2 three_deep <> inl MalformedResponseError.
Proof. repeat split. discriminate. Qed.

Lemma convert_map_composite_idempotent_on_plain_witness :
  plain plain_tree = true /\
  convert_map_composite plain_tree =
    VList [VInt 1; VDict [("a", VNone)]; VList [VStr "b"]] /\
  convert_map_composite (convert_map_composite plain_tree)
  = convert_map_composite plain_tree.
Proof.
  split; [reflexivity|]. split; [reflexivity|].
  exact (convert_map_composite_idempotent_on_plain plain_tree eq_refl).
Defined.

(** ** Further properties at work *)



Lemma _wrap_tool_normalizer_error_witness :
  Backend.json_schema_to_model (VStr "not a schema")
    = inl (Raised "SchemaError") /\
  _wrap_tool Backend.json_schema_to_model Backend.Model_schema
    Faulty.unschematic_schema (Some "alice") = inl (Raised "SchemaError").
Proof.
  split; [reflexivity|].
  exact (_wrap_tool_normalizer_error dict Backend.json_schema_to_model
           Backend.Model_schema Faulty.unschematic_schema (Some "alice")
           (VStr "ODD") (VStr "not a schema") (Raised "SchemaError")
           eq_refl eq_refl eq_refl).
Defined.

Lemma _wrap_tool_parameters_shape_witness :
  _wrap_tool Backend.json_schema_to_model Backend.Model_schema
    Faulty.labels_schema None = inr Faulty.labels_declaration /\
  dict_get Faulty.labels_schema "name"
    = Some (fd_name Faulty.labels_declaration) /\
  keys (fd_parameters Faulty.labels_declaration)
    = ["type"; "properties"; "required"] /\
  dict_get (fd_parameters Faulty.labels_declaration) "type"
    = Some (VStr "object").
Proof.
  split; [reflexivity|].
  exact (_wrap_tool_parameters_shape dict Backend.json_schema_to_model
           Backend.Model_schema Faulty.labels_schema None
           Faulty.labels_declaration eq_refl).
Defined.

Lemma _wrap_tool_property_not_mapping_witness :
  _wrap_tool Backend.json_schema_to_model Backend.Model_schema
    Faulty.flat_property_schema None = inl (AttributeError "items").
Proof.
  refine (_wrap_tool_property_not_mapping dict Backend.json_schema_to_model
            Backend.Model_schema Faulty.flat_property_schema None
            (VStr "FLAT")
            (VDict [ ("properties", VDict [ ("repo", VStr "string") ]) ])
            _ [ ("repo", VStr "string") ] "repo" (VStr "string")
            eq_refl eq_refl eq_refl eq_refl _ _ _).
  - left. reflexivity.
  - intros its H. discriminate H.
  - intros its H. discriminate H.
Defined.

Lemma _wrap_tool_without_properties_witness :
  exists fd,
    _wrap_tool Backend.json_schema_to_model Backend.Model_schema
      Faulty.ping_schema None = inr fd /\
    fd_name fd = VStr "PING" /\
    dict_get (fd_parameters fd) "properties" = Some (VDict []) /\
    dict_get (fd_parameters fd) "required" = Some (VList []).
Proof.
  exact (_wrap_tool_without_properties dict Backend.json_schema_to_model
           Backend.Model_schema Faulty.ping_schema None (VStr "PING")
           (VDict [ ("title", VStr "PingRequest") ]) _
           eq_refl eq_refl eq_refl eq_refl).
Defined.


Lemma get_tool_validation_failure_witness :
  get_tool Backend.model_dump Backend.json_schema_to_model
    Backend.Model_schema "default" Faulty.validate_tools
    Backend.get_action_schemas (Some ["NO_SUCH_ACTION"]) None None None
    Backend.fresh =
  ({| warnings := []; world := [("validate_tools", VNone, "")] |},
   inl (Raised "FilterValidationError")).
Proof.
  exact (get_tool_validation_failure string string string dict
           Backend.World Backend.model_dump dict
           Backend.json_schema_to_model Backend.Model_schema "default"
           Faulty.validate_tools Backend.get_action_schemas
           (Some ["NO_SUCH_ACTION"]) None None None Backend.fresh
           [("validate_tools", VNone, "")]
           (Raised "FilterValidationError") eq_refl).
Defined.

Lemma get_tool_one_declaration_per_schema_witness :
  get_tool Backend.model_dump Backend.json_schema_to_model
    Backend.Model_schema "default" Backend.validate_tools
    Backend.get_action_schemas None None None (Some "alice")
    Backend.fresh =
  (Backend.fresh,
   inr {| function_declarations := [Backend.star_declaration] |}) /\
  List.length [Backend.star_declaration] = List.length [Backend.star_schema].
Proof.
  refine (get_tool_one_declaration_per_schema string string string dict
            Backend.World Backend.model_dump dict
            Backend.json_schema_to_model Backend.Model_schema "default"
            Backend.validate_tools Backend.get_action_schemas
            None None None (Some "alice") Backend.fresh [] []
            [Backend.star_schema] [Backend.star_declaration]
            eq_refl eq_refl _).
  constructor; [reflexivity|constructor].
Defined.

Lemma get_tool_fails_on_first_bad_schema_witness :
  get_tool Backend.model_dump Backend.json_schema_to_model
    Backend.Model_schema "default" Backend.validate_tools
    Faulty.get_action_schemas None None None None Backend.fresh =
  ({| warnings := []; world := [("get_action_schemas", VNone, "")] |},
   inl (KeyError "name")).
Proof.
  refine (get_tool_fails_on_first_bad_schema string string string dict
            Backend.World Backend.model_dump dict
            Backend.json_schema_to_model Backend.Model_schema "default"
            Backend.validate_tools Faulty.get_action_schemas
            None None None None Backend.fresh []
            [("get_action_schemas", VNone, "")]
            [Backend.star_schema] [Faulty.ping_schema]
            Faulty.nameless_schema [Backend.star_declaration]
            (KeyError "name") eq_refl eq_refl _ eq_refl).
  constructor; [reflexivity|constructor].
Defined.

Lemma handle_response_output_count_witness :
  handle_response Backend.Action_of_value "default" Backend.execute_action
    Faulty.two_candidates (Some "alice") Backend.fresh =
  ({| warnings := [];
      world :=
        [ ("FIRST",
            VDict [("a", VDict [("b", VList [VInt 1; VInt 2; VInt 3])])],
            "alice");
          ("SECOND", VDict [], "alice") ] |},
   inr [ VDict [("successful", VBool true); ("action", VStr "FIRST")];
         VDict [("successful", VBool true); ("action", VStr "SECOND")] ]) /\
  List.length
    [ VDict [("successful", VBool true); ("action", VStr "FIRST")];
      VDict [("successful", VBool true); ("action", VStr "SECOND")] ]
  = List.length (calls_of_response Faulty.two_candidates).
Proof.
  split; [reflexivity|].
  exact (handle_response_output_count string Backend.World
           Backend.Action_of_value "default" Backend.execute_action
           Faulty.two_candidates (Some "alice") Backend.fresh _ _ eq_refl).
Defined.

Lemma execute_function_call_unknown_action_witness :
  Faulty.Action_of_value "UNKNOWN" = inl (Raised "ValueError") /\
  execute_function_call Faulty.Action_of_value "default"
    Backend.execute_action (Backend.request "UNKNOWN") None Backend.fresh
  = (Backend.fresh, inl (Raised "ValueError")).
Proof.
  split; [reflexivity|].
  exact (execute_function_call_unknown_action string Backend.World
           Faulty.Action_of_value "default" Backend.execute_action
           (Backend.request "UNKNOWN") None Backend.fresh
           (Raised "ValueError") eq_refl).
Defined.

Lemma execute_function_call_definitions_agree_witness :
  nested_vendor_map <> VNone /\
  execute_function_call_shadowed Backend.Action_of_value "default"
    Backend.execute_action
    {| fc_name := "FIRST"; fc_args := nested_vendor_map |} None
    Backend.fresh =
  execute_function_call Backend.Action_of_value "default"
    Backend.execute_action
    {| fc_name := "FIRST"; fc_args := nested_vendor_map |} None
    Backend.fresh.
Proof.
  assert (H : nested_vendor_map <> VNone) by discriminate.
  split; [exact H|].
  exact (execute_function_call_definitions_agree string Backend.World
           Backend.Action_of_value "default" Backend.execute_action
           {| fc_name := "FIRST"; fc_args := nested_vendor_map |} None
           Backend.fresh H).
Defined.

